(** * File Transfer App: the transfer registry of [server.js]

    A shallow embedding of the request handlers of [src/server.js] and of the
    helpers they call, followed by the properties of the registry
    ([fileStore]), of expiry and of the size formatter.

    Conventions of the embedding.
    - [fileStore] (a JS [Map] keyed by strings, never iterated) is a
      [gmap string TransferRecord.t]: [get] is lookup, [set] is insert,
      [delete] is delete.
    - A [Date] is its number of milliseconds since the epoch, a [Z]. The field
      [clock] of the world is what the first read of the clock in a handler
      returns.  The upload handler reads the clock a second time (lines 65 and
      66): that read returns [clock] plus what the oracle [elapsed] gives, a
      number of milliseconds that is not negative (the clock does not run
      backwards inside a handler).  The oracle is indexed, like the random
      source, by the number of values drawn so far, which is different at
      every upload.
    - [Math.random()] is an oracle: the world carries the sequence of the
      values the process will draw, each seen through [toString(36)], and the
      number of values drawn so far.
    - [disk] is the set of paths present in the upload directory.  Multer's
      disk storage writes there before the upload handler runs; no handler of
      [server.js] calls into [fs] for a stored file.
    - Nothing in the bodies of the handlers throws on the values modelled
      here, so the [catch] branches (status 500) are not reached and have no
      counterpart. *)

From Stdlib Require Import ZArith Lia.
From stdpp Require Import gmap strings list fin_maps pretty.

Local Open Scope Z_scope.

(** ** Data model *)

(** An element of [req.files], as multer hands it to the upload handler. *)
Module MulterFile.
Record t : Type := mk {
  originalname : string;
  filename : string;
  path : string;
  size : Z
}.
End MulterFile.

(** An element of [files] in a stored entry (lines 57-62). *)
Module FileRecord.
Record t : Type := mk {
  originalName : string;
  storedName : string;
  path : string;
  size : Z
}.
End FileRecord.

(** A value of [fileStore] (lines 56-67). [email] and [message] are
    [req.body.email] and [req.body.message], possibly [undefined]. *)
Module TransferRecord.
Record t : Type := mk {
  files : list FileRecord.t;
  email : option string;
  message : option string;
  createdAt : Z;
  expiresAt : Z
}.
End TransferRecord.

Record World : Type := mkWorld {
  fileStore : gmap string TransferRecord.t;
  clock : Z;
  randoms : nat → string;
  drawn : nat;
  disk : gset string;
  elapsed : nat → N
}.

Definition setClock (t : Z) (w : World) : World :=
  mkWorld (fileStore w) t (randoms w) (drawn w) (disk w) (elapsed w).

(** ** The state monad of the handlers *)

Definition M (A : Type) : Type := World → A * World.

Definition ret {A : Type} (a : A) : M A := λ w, (a, w).

Definition bind {A B : Type} (m : M A) (f : A → M B) : M B :=
  λ w, let (a, w') := m w in f a w'.

Notation "x <- m ;; k" := (bind m (λ x, k))
  (at level 100, m at next level, right associativity).
Notation "m ;;; k" := (bind m (λ _, k))
  (at level 100, right associativity).

(** [Date.now()] and [new Date()], read for the first time in a handler. *)
Definition dateNow : M Z := λ w, (clock w, w).

(** The clock read again, later in the same handler. *)
Definition dateNowAgain : M Z :=
  λ w, (clock w + Z.of_N (elapsed w (drawn w)), w).

(** [Math.random().toString(36)]. *)
Definition mathRandom36 : M string :=
  λ w, (randoms w (drawn w),
        mkWorld (fileStore w) (clock w) (randoms w) (S (drawn w)) (disk w) (elapsed w)).

(** [fileStore.get], [fileStore.set], [fileStore.delete]. *)
Definition storeGet (id : string) : M (option TransferRecord.t) :=
  λ w, (fileStore w !! id, w).

Definition storeSet (id : string) (r : TransferRecord.t) : M unit :=
  λ w, (tt, mkWorld (<[id := r]> (fileStore w)) (clock w) (randoms w) (drawn w) (disk w)
                    (elapsed w)).

Definition storeDelete (id : string) : M unit :=
  λ w, (tt, mkWorld (delete id (fileStore w)) (clock w) (randoms w) (drawn w) (disk w)
                    (elapsed w)).

(** ** Helper functions (lines 191-202) *)

(** [s.substring(2, 15)]: the characters at positions 2 to 14, fewer when the
    string is shorter. *)
Definition substring_2_15 (s : string) : string := String.substring 2 13 s.

(** [generateDownloadId] (lines 192-194): two draws, left operand first. *)
Definition generateDownloadId : M string :=
  r1 <- mathRandom36 ;;
  r2 <- mathRandom36 ;;
  ret (substring_2_15 r1 +:+ substring_2_15 r2).

Definition k : Z := 1024.

Definition sizes : list string := ["Bytes"; "KB"; "MB"; "GB"].

(** [sizes[i]] followed by the conversion of string concatenation: an index
    outside the array reads [undefined]. *)
Definition sizes_at (i : Z) : string :=
  if i <? 0 then "undefined"
  else match sizes !! Z.to_nat i with
       | Some u => u
       | None => "undefined"
       end.

(** [Math.floor(Math.log(bytes) / Math.log(k))] for an integer [bytes >= 1]:
    the integer logarithm in base 1024, which is the binary one divided by
    10.  The source floors a quotient of two double-precision logarithms.
    That floor is this value for every integer below [1024^4] and at the
    sizes the statements below evaluate; immediately below a larger power of
    1024 (from [1024^5 - 3] to [1024^5 - 1]) the quotient rounds up to the
    power's exponent and the source's index is one more than this value. *)
Definition floor_log_k (bytes : Z) : Z := Z.log2 bytes / 10.

(** [(bytes / d).toFixed(2)] as a number of hundredths: the nearest one, the
    larger of the two when both are as near. *)
Definition toFixed2 (bytes d : Z) : Z := (200 * bytes + d) / (2 * d).

(** [parseFloat(h/100 printed with two decimals)] converted back to a string:
    trailing zeros of the fraction are dropped, and the point with them. *)
Definition hundredthsToString (h : Z) : string :=
  let ip := h / 100 in
  let fp := h mod 100 in
  if fp =? 0 then pretty ip
  else if fp mod 10 =? 0 then pretty ip +:+ "." +:+ pretty (fp / 10)
  else pretty ip +:+ "." +:+ pretty (fp / 10) +:+ pretty (fp mod 10).

(** [formatFileSize] (lines 196-202) on integers. A negative argument makes
    the logarithm, the index and the quotient all [NaN]. *)
Definition formatFileSize (bytes : Z) : string :=
  if bytes =? 0 then "0 Bytes"
  else if bytes <? 0 then "NaN undefined"
  else
    let i := floor_log_k bytes in
    hundredthsToString (toFixed2 bytes (k ^ i)) +:+ " " +:+ sizes_at i.

(** ** Responses *)

(** One entry of the download page (lines 144-149): the link, its text and
    the size shown next to it. *)
Record ManifestItem : Type := mkItem {
  href : string;
  label : string;
  sizeText : string
}.

Inductive Response : Type :=
| Json400 (error : string)
| JsonUpload (downloadId : string) (message : string) (fileCount : nat)
| Html404
| Html410
| ResDownload (path : string) (name : string)
| ManifestPage (items : list ManifestItem)
| Text404 (body : string).

(** ** The upload route (lines 37-85) *)

(** Multer's [upload.array('files')] with the disk storage of lines 14-26:
    every file it hands over has been written at its [path], and naming it
    (line 23) has drawn one random value.  The names themselves are taken as
    multer reports them in [filename] and [path]. *)
Definition multerArray (files : option (list MulterFile.t)) : M unit :=
  λ w, (tt, mkWorld (fileStore w) (clock w) (randoms w)
                    (drawn w + length (default [] files))%nat
                    (list_to_set (MulterFile.path <$> default [] files) ∪ disk w)
                    (elapsed w)).

(** The callback of [files.map] (lines 57-62). *)
Definition fileInfo (file : MulterFile.t) : FileRecord.t :=
  FileRecord.mk (MulterFile.originalname file) (MulterFile.filename file)
                (MulterFile.path file) (MulterFile.size file).

(** Seven days in milliseconds (line 66). *)
Definition sevenDays : Z := 7 * 24 * 60 * 60 * 1000.

Definition handleUpload (files : option (list MulterFile.t))
    (email message : option string) : M Response :=
  match files with
  | None | Some [] => ret (Json400 "Please select files to upload")
  | Some files =>
      downloadId <- generateDownloadId ;;
      createdAt <- dateNow ;;
      now <- dateNowAgain ;;
      storeSet downloadId
        (TransferRecord.mk (fileInfo <$> files) email message
                           createdAt (now + sevenDays)) ;;;
      ret (JsonUpload downloadId "Files uploaded successfully!" (length files))
  end.

Definition uploadRoute (files : option (list MulterFile.t))
    (email message : option string) : M Response :=
  multerArray files ;;; handleUpload files email message.

(** ** The download route (lines 88-161) *)

Inductive Resolved : Type :=
| NotFound
| Expired
| Found (fileData : TransferRecord.t).

(** Lines 90-119: the lookup and the expiry check, which deletes the entry. *)
Definition resolve (downloadId : string) : M Resolved :=
  fileData <- storeGet downloadId ;;
  match fileData with
  | None => ret NotFound
  | Some fileData =>
      now <- dateNow ;;
      if TransferRecord.expiresAt fileData <? now
      then storeDelete downloadId ;;; ret Expired
      else ret (Found fileData)
  end.

(** The callback of [fileData.files.map] in the page (lines 144-149). *)
Definition manifestItem (downloadId : string) (file : FileRecord.t) : ManifestItem :=
  mkItem ("/download-file/" +:+ downloadId +:+ "/" +:+ FileRecord.storedName file)
         (FileRecord.originalName file)
         (formatFileSize (FileRecord.size file)).

Definition handleDownload (downloadId : string) : M Response :=
  r <- resolve downloadId ;;
  match r with
  | NotFound => ret Html404
  | Expired => ret Html410
  | Found fileData =>
      match TransferRecord.files fileData with
      | [file] => ret (ResDownload (FileRecord.path file) (FileRecord.originalName file))
      | files => ret (ManifestPage (manifestItem downloadId <$> files))
      end
  end.

(** ** The single-file route (lines 164-175) *)

Definition handleFileDownload (downloadId filename : string) : M Response :=
  fileData <- storeGet downloadId ;;
  match fileData with
  | None => ret (Text404 "File not found")
  | Some fileData =>
      match List.find (λ f, bool_decide (FileRecord.storedName f = filename))
                      (TransferRecord.files fileData) with
      | None => ret (Text404 "File not found")
      | Some file => ret (ResDownload (FileRecord.path file) (FileRecord.originalName file))
      end
  end.

(** ** The server as a transition system *)

Inductive Request : Type :=
| PostUpload (files : option (list MulterFile.t)) (email message : option string)
| GetDownload (id : string)
| GetDownloadFile (id filename : string).

Definition handle (req : Request) : M Response :=
  match req with
  | PostUpload files email message => uploadRoute files email message
  | GetDownload id => handleDownload id
  | GetDownloadFile id filename => handleFileDownload id filename
  end.

(** A request arriving at instant [t]. *)
Definition serve (t : Z) (req : Request) (w : World) : Response * World :=
  handle req (setClock t w).

Fixpoint run (evs : list (Z * Request)) (w : World) : World :=
  match evs with
  | [] => w
  | (t, req) :: evs' => run evs' (serve t req w).2
  end.

(** Whether some upload of the trace is answered with identifier [id]. *)
Fixpoint reissues (id : string) (evs : list (Z * Request)) (w : World) : bool :=
  match evs with
  | [] => false
  | (t, req) :: evs' =>
      match (serve t req w).1 with
      | JsonUpload id' _ _ => bool_decide (id' = id)
      | _ => false
      end || reissues id evs' (serve t req w).2
  end.

(** The identifiers of the entries of [m] past their expiry at [now]. *)
Definition expiredKeys (now : Z) (m : gmap string TransferRecord.t) : gset string :=
  dom (filter (λ kv, TransferRecord.expiresAt kv.2 < now) m).

(** ** Names used in the statements *)

(** The identifier [generateDownloadId] returns in world [w]. *)
Definition nextId (w : World) : string :=
  substring_2_15 (randoms w (drawn w)) +:+ substring_2_15 (randoms w (S (drawn w))).

Definition uploadMessage : string := "Files uploaded successfully!".

(** The [expiresAt] the upload handler stores when it runs in world [w]:
    seven days after its second read of the clock, which comes after the
    two draws of the identifier. *)
Definition uploadExpiry (w : World) : Z :=
  clock w + Z.of_N (elapsed w (S (S (drawn w)))) + sevenDays.

(** ** Sample data *)

Module Sample.

(** Successive values of [Math.random().toString(36)]. *)
Definition rnd (n : nat) : string :=
  match n with
  | 0%nat => "0.k3j9x1q8zpa"
  | 1%nat => "0.7hq2m5v0cbd"
  | 2%nat => "0.c41wz0tnq6s"
  | _ => "0.9d2e8r5ylmf"
  end.

Definition report : MulterFile.t :=
  MulterFile.mk "report.pdf" "1000-42.pdf" "uploads/1000-42.pdf" 2048.
Definition photo : MulterFile.t :=
  MulterFile.mk "photo.png" "1000-77.png" "uploads/1000-77.png" 1536000.
Definition notes : MulterFile.t :=
  MulterFile.mk "notes.txt" "1000-91.txt" "uploads/1000-91.txt" 0.

(** A fresh process at instant 1000. *)
Definition fresh : World := mkWorld ∅ 1000 rnd 0 ∅ (λ _, 0%N).

Definition old : TransferRecord.t :=
  TransferRecord.mk [FileRecord.mk "old.zip" "500-7.zip" "uploads/500-7.zip" 4096]
                    None None 500 (500 + sevenDays).

(** A process whose store already holds the identifier the next upload
    will draw. *)
Definition taken : World :=
  mkWorld {[ "k3j9x1q8zpa7hq2m5v0cbd" := old ]} 1000 rnd 0 {[ "uploads/500-7.zip" ]}
          (λ _, 0%N).

Definition stale (name : string) : TransferRecord.t :=
  TransferRecord.mk [FileRecord.mk name name ("uploads/" +:+ name) 10]
                    None None 0 sevenDays.

(** Two entries, both past their expiry at instant [sevenDays + 1]. *)
Definition twoStale : World :=
  mkWorld {[ "aaaa" := stale "a.txt"; "bbbb" := stale "b.txt" ]}
          (sevenDays + 1) rnd 0 {[ "uploads/a.txt"; "uploads/b.txt" ]} (λ _, 0%N).


End Sample.

(** ** The stored name of an upload (lines 22-25) *)

(** [Date.now() + '-' + Math.round(Math.random() * 1E9) +
    path.extname(file.originalname)]: [now] is the instant, [jitter] the
    rounded draw, an integer from 0 to [10^9], and [ext] the extension Node's
    [path.extname] returns for the original name. Both numbers are integers
    below [10^21] and print in decimal. *)
Definition uniqueName (now jitter : Z) (ext : string) : string :=
  pretty now +:+ "-" +:+ pretty jitter +:+ ext.

(** What [path.extname] returns: nothing, or a suffix that starts at a
    point. *)
Definition extension (ext : string) : Prop :=
  ext = "" ∨ ∃ rest, ext = "." +:+ rest.

(** ** Predicates used in the statements *)

Definition isDigit (c : Ascii.ascii) : bool :=
  (48 <=? Z.of_N (Ascii.N_of_ascii c)) && (Z.of_N (Ascii.N_of_ascii c) <=? 57).

Fixpoint allDigits (s : string) : bool :=
  match s with
  | EmptyString => true
  | String c s' => isDigit c && allDigits s'
  end.

(** An entry as the upload handler builds it: at least one file, and an
    expiry not less than seven days after its creation. *)
Definition entryOk (r : TransferRecord.t) : Prop :=
  TransferRecord.files r ≠ []
  ∧ TransferRecord.createdAt r + sevenDays ≤ TransferRecord.expiresAt r.

Definition storeOk (w : World) : Prop :=
  ∀ id r, fileStore w !! id = Some r → entryOk r.

(** The number of requests of a trace answered with a new identifier. *)
Fixpoint uploadsAnswered (evs : list (Z * Request)) (w : World) : nat :=
  match evs with
  | [] => 0%nat
  | (t, req) :: evs' =>
      (match (serve t req w).1 with
       | JsonUpload _ _ _ => 1
       | _ => 0
       end + uploadsAnswered evs' (serve t req w).2)%nat
  end.

(** The item of the download page for an uploaded file. *)
Definition uploadedItem (downloadId : string) (file : MulterFile.t) : ManifestItem :=
  mkItem ("/download-file/" +:+ downloadId +:+ "/" +:+ MulterFile.filename file)
         (MulterFile.originalname file)
         (formatFileSize (MulterFile.size file)).

(** The answers of the server along a trace. *)
Fixpoint responses (evs : list (Z * Request)) (w : World) : list Response :=
  match evs with
  | [] => []
  | (t, req) :: evs' => (serve t req w).1 :: responses evs' (serve t req w).2
  end.

(** An entry and a request without what the uploader wrote beside the files
    (the e-mail address and the message) and without the creation date. *)
Definition blankEntry (r : TransferRecord.t) : TransferRecord.t :=
  TransferRecord.mk (TransferRecord.files r) None None 0 (TransferRecord.expiresAt r).

Definition blankWorld (w : World) : World :=
  mkWorld (blankEntry <$> fileStore w) (clock w) (randoms w) (drawn w) (disk w)
          (elapsed w).

Definition blankRequest (req : Request) : Request :=
  match req with
  | PostUpload files _ _ => PostUpload files None None
  | _ => req
  end.

(** ** The size formatter on sample values *)

Example formatFileSize_0 : formatFileSize 0 = "0 Bytes".
Proof. reflexivity. Qed.

Example formatFileSize_1024 : formatFileSize 1024 = "1 KB".
Proof. vm_compute. reflexivity. Qed.

Example formatFileSize_1536 : formatFileSize 1536 = "1.5 KB".
Proof. vm_compute. reflexivity. Qed.

Example formatFileSize_1MB : formatFileSize 1048576 = "1 MB".
Proof. vm_compute. reflexivity. Qed.

Example formatFileSize_5GB : formatFileSize 5368709120 = "5 GB".
Proof. vm_compute. reflexivity. Qed.

Example formatFileSize_1234567 : formatFileSize 1234567 = "1.18 MB".
Proof. vm_compute. reflexivity. Qed.

Example formatFileSize_1100 : formatFileSize 1100 = "1.07 KB".
Proof. vm_compute. reflexivity. Qed.

(** ** Unfolding lemmas for the handlers *)


Lemma handleUpload_nonempty (w : World) files email message :
  files ≠ [] →
  handleUpload (Some files) email message w =
  (JsonUpload (nextId w) uploadMessage (length files),
   mkWorld (<[nextId w :=
               TransferRecord.mk (fileInfo <$> files) email message
                                 (clock w) (uploadExpiry w)]> (fileStore w))
           (clock w) (randoms w) (S (S (drawn w))) (disk w) (elapsed w)).
Proof. destruct files as [|f fs]; [done | reflexivity]. Qed.

Lemma resolve_absent (w : World) id :
  fileStore w !! id = None → resolve id w = (NotFound, w).
Proof. intros H. unfold resolve, bind, storeGet. rewrite H. reflexivity. Qed.

Lemma resolve_expired (w : World) id r :
  fileStore w !! id = Some r →
  TransferRecord.expiresAt r < clock w →
  resolve id w =
  (Expired,
   mkWorld (delete id (fileStore w)) (clock w) (randoms w) (drawn w) (disk w) (elapsed w)).
Proof.
  intros H Hlt. unfold resolve, bind, storeGet, dateNow. rewrite H. simpl.
  apply Z.ltb_lt in Hlt. rewrite Hlt. reflexivity.
Qed.

Lemma resolve_live (w : World) id r :
  fileStore w !! id = Some r →
  clock w ≤ TransferRecord.expiresAt r →
  resolve id w = (Found r, w).
Proof.
  intros H Hle. unfold resolve, bind, storeGet, dateNow. rewrite H. simpl.
  apply Z.ltb_ge in Hle. rewrite Hle. reflexivity.
Qed.

(** The world after [handleDownload] is the world after [resolve]. *)
Lemma handleDownload_world (w : World) id :
  (handleDownload id w).2 = (resolve id w).2.
Proof.
  unfold handleDownload, bind. destruct (resolve id w) as [[| |fd] w'];
    [reflexivity | reflexivity |].
  destruct (TransferRecord.files fd) as [|f [|g fs]]; reflexivity.
Qed.

Lemma handleFileDownload_world (w : World) id filename :
  (handleFileDownload id filename w).2 = w.
Proof.
  unfold handleFileDownload, bind, storeGet.
  destruct (fileStore w !! id) as [fd|]; [|reflexivity].
  destruct (List.find _ _); reflexivity.
Qed.

Lemma handleFileDownload_absent (w : World) id filename :
  fileStore w !! id = None →
  (handleFileDownload id filename w).1 = Text404 "File not found".
Proof. intros H. unfold handleFileDownload, bind, storeGet. rewrite H. reflexivity. Qed.

Lemma handleDownload_absent (w : World) id :
  fileStore w !! id = None → (handleDownload id w).1 = Html404.
Proof. intros H. unfold handleDownload, bind. rewrite (resolve_absent _ _ H). reflexivity. Qed.

(** The store after [resolve]: the entry is dropped exactly when it is past
    its expiry. *)
Lemma resolve_store (w : World) id :
  fileStore (resolve id w).2 =
  match fileStore w !! id with
  | Some r => if TransferRecord.expiresAt r <? clock w
              then delete id (fileStore w) else fileStore w
  | None => fileStore w
  end.
Proof.
  unfold resolve, bind, storeGet, dateNow.
  destruct (fileStore w !! id) as [r|]; [|reflexivity]. simpl.
  destruct (TransferRecord.expiresAt r <? clock w); reflexivity.
Qed.

(** The store after the upload route: one insertion, or none. *)
Lemma uploadRoute_store (w : World) files email message :
  fileStore (uploadRoute files email message w).2 = fileStore w
  ∨ ∃ id r, (uploadRoute files email message w).1 =
              JsonUpload id uploadMessage (length (default [] files))
            ∧ fileStore (uploadRoute files email message w).2 = <[id := r]> (fileStore w).
Proof.
  destruct files as [[|f fs]|]; [left; reflexivity | | left; reflexivity].
  right. unfold uploadRoute, bind, multerArray.
  rewrite handleUpload_nonempty by done. simpl. eauto.
Qed.

(** An identifier absent from the store stays absent until an upload is
    answered with it. *)
Lemma serve_absent (w : World) (t : Z) (req : Request) (id : string) :
  fileStore w !! id = None →
  match (serve t req w).1 with
  | JsonUpload id' _ _ => bool_decide (id' = id)
  | _ => false
  end = false →
  fileStore (serve t req w).2 !! id = None.
Proof.
  intros Habs Hresp. unfold serve in *.
  destruct req as [files email message|id'|id' filename]; simpl in *.
  - destruct (uploadRoute_store (setClock t w) files email message) as [->|(i & r' & Hr & ->)];
      [done|]. rewrite Hr in Hresp. apply bool_decide_eq_false in Hresp.
    simpl. by rewrite lookup_insert_ne.
  - rewrite handleDownload_world, resolve_store. simpl.
    destruct (fileStore w !! id') as [r'|]; [|done].
    destruct (_ <? _); [|done].
    destruct (decide (id' = id)) as [->|Hne];
      [apply lookup_delete_eq | by rewrite lookup_delete_ne].
  - by rewrite handleFileDownload_world.
Qed.

Lemma run_absent (evs : list (Z * Request)) (w : World) (id : string) :
  fileStore w !! id = None →
  reissues id evs w = false →
  fileStore (run evs w) !! id = None.
Proof.
  revert w. induction evs as [|[t req] evs IH]; intros w Habs Hre; [done|].
  simpl in *. apply orb_false_iff in Hre as [Hhere Hlater].
  apply IH; [|done]. by apply serve_absent.
Qed.

(** ** Properties *)

(** C1 (counterexample). The store holds an entry under the identifier the
    next upload draws; the upload is answered with that identifier and the
    entry is replaced by the new one. Two random values have been drawn, those
    of one identifier: there is no check and no retry. *)
Lemma C1_upload_replaces_existing_entry :
  fileStore Sample.taken !! "k3j9x1q8zpa7hq2m5v0cbd" = Some Sample.old
  ∧ (handleUpload (Some [Sample.report]) None None Sample.taken).1
    = JsonUpload "k3j9x1q8zpa7hq2m5v0cbd" uploadMessage 1
  ∧ fileStore (handleUpload (Some [Sample.report]) None None Sample.taken).2
      !! "k3j9x1q8zpa7hq2m5v0cbd"
    = Some (TransferRecord.mk [fileInfo Sample.report] None None 1000 (1000 + sevenDays))
  ∧ drawn (handleUpload (Some [Sample.report]) None None Sample.taken).2 = 2%nat.
Proof. vm_compute. repeat split; reflexivity. Qed.

(** C1 (amended). An upload of a non-empty batch draws one identifier and
    stores the new entry under it unconditionally: every entry under another
    identifier is kept as it is, and an entry already under the drawn
    identifier is replaced. In particular, when the drawn identifier is not
    yet a key, no existing entry is replaced. *)
Theorem C1_upload_sets_drawn_identifier
    (w : World) (files : list MulterFile.t) (email message : option string) :
  files ≠ [] →
  let id := nextId w in
  let entry := TransferRecord.mk (fileInfo <$> files) email message
                                 (clock w) (uploadExpiry w) in
  let w' := (handleUpload (Some files) email message w).2 in
  (handleUpload (Some files) email message w).1 = JsonUpload id uploadMessage (length files)
  ∧ fileStore w' = <[id := entry]> (fileStore w)
  ∧ drawn w' = S (S (drawn w))
  ∧ fileStore w' !! id = Some entry
  ∧ (∀ id', id' ≠ id → fileStore w' !! id' = fileStore w !! id')
  ∧ (fileStore w !! id = None →
     ∀ id' r, fileStore w !! id' = Some r → fileStore w' !! id' = Some r).
Proof.
  intros Hne. cbv zeta. rewrite handleUpload_nonempty by done. simpl.
  repeat split.
  - apply lookup_insert_eq.
  - intros id' Hid'. by rewrite lookup_insert_ne.
  - intros Hfresh id' r Hr. rewrite lookup_insert_ne; [done|].
    intros Heq. rewrite Heq in Hfresh. congruence.
Qed.

Lemma C1_upload_sets_drawn_identifier_witness :
  fileStore (handleUpload (Some [Sample.report; Sample.photo]) None None Sample.fresh).2
  = <[ "k3j9x1q8zpa7hq2m5v0cbd" :=
         TransferRecord.mk [fileInfo Sample.report; fileInfo Sample.photo]
                           None None 1000 (1000 + sevenDays) ]> ∅.
Proof.
  pose proof (C1_upload_sets_drawn_identifier Sample.fresh
                [Sample.report; Sample.photo] None None) as H.
  simpl in H. apply H. discriminate.
Defined.

(** No download request touches the disk: neither route deletes a stored
    file. *)
Lemma download_keeps_disk (w : World) (t : Z) (req : Request) :
  (∀ files email message, req ≠ PostUpload files email message) →
  disk (serve t req w).2 = disk w.
Proof.
  intros Hreq. unfold serve. destruct req as [files email message|id|id filename]; simpl.
  - by destruct (Hreq files email message).
  - rewrite handleDownload_world. unfold resolve, bind, storeGet, dateNow. simpl.
    destruct (fileStore w !! id) as [r|]; [|reflexivity]. simpl.
    destruct (_ <? _); reflexivity.
  - by rewrite handleFileDownload_world.
Qed.

(** The upload route leaves every uploaded file on the disk. *)
Lemma uploadRoute_disk (w : World) files email message :
  disk (uploadRoute (Some files) email message w).2
  = list_to_set (MulterFile.path <$> files) ∪ disk w.
Proof.
  unfold uploadRoute, bind, multerArray. destruct files as [|f fs]; [reflexivity|].
  rewrite handleUpload_nonempty by done. reflexivity.
Qed.

(** C2 (the code at the failing input). One file is uploaded at instant 1000
    and the link is opened one millisecond after its expiry: the answer is the
    expired page and the entry is removed from the store, while the stored
    file is still on the disk. *)
Theorem C2_expired_entry_leaves_file_on_disk :
  let up := serve 1000 (PostUpload (Some [Sample.report]) None None) Sample.fresh in
  let down := serve (1000 + sevenDays + 1) (GetDownload "7hq2m5v0cbdc41wz0tnq6s") up.2 in
  up.1 = JsonUpload "7hq2m5v0cbdc41wz0tnq6s" uploadMessage 1
  ∧ down.1 = Html410
  ∧ fileStore down.2 !! "7hq2m5v0cbdc41wz0tnq6s" = None
  ∧ "uploads/1000-42.pdf" ∈ disk down.2.
Proof.
  cbv zeta. repeat split; vm_compute; reflexivity.
Qed.

(** C3 (the code at the failing input). The entry of the previous upload is
    past its expiry, yet the single-file route answers with the stored file
    and leaves the entry in the store; the download route, at the same
    instant, answers with the expired page. *)
Theorem C3_file_route_serves_expired_entry :
  let up := serve 1000 (PostUpload (Some [Sample.report]) None None) Sample.fresh in
  let late := 1000 + sevenDays + 1 in
  let file := serve late (GetDownloadFile "7hq2m5v0cbdc41wz0tnq6s" "1000-42.pdf") up.2 in
  file.1 = ResDownload "uploads/1000-42.pdf" "report.pdf"
  ∧ (∃ r, fileStore file.2 !! "7hq2m5v0cbdc41wz0tnq6s" = Some r
          ∧ TransferRecord.expiresAt r < late)
  ∧ (serve late (GetDownload "7hq2m5v0cbdc41wz0tnq6s") up.2).1 = Html410.
Proof.
  cbv zeta. split; [vm_compute; reflexivity|]. split; [|vm_compute; reflexivity].
  eexists. split; [vm_compute; reflexivity|]. vm_compute. reflexivity.
Qed.

(** The single-file route never reads the clock: its answer and the world
    after it are the same at every instant. *)
Lemma handleFileDownload_ignores_clock (w : World) (t : Z) id filename :
  (handleFileDownload id filename (setClock t w)).1 = (handleFileDownload id filename w).1.
Proof.
  unfold handleFileDownload, bind, storeGet. simpl.
  destruct (fileStore w !! id) as [fd|]; [|reflexivity].
  destruct (List.find _ _); reflexivity.
Qed.

(** From [1024^4] on, the index computed by [formatFileSize] is at least 4,
    past the end of [sizes]. *)
Lemma floor_log_k_large (bytes : Z) : 1024 ^ 4 ≤ bytes → 4 ≤ floor_log_k bytes.
Proof.
  intros H. unfold floor_log_k.
  assert (40 ≤ Z.log2 bytes) as Hlog.
  { change 40 with (Z.log2 (1024 ^ 4)). by apply Z.log2_le_mono. }
  apply Z.div_le_lower_bound; lia.
Qed.

Lemma sizes_at_large (i : Z) : 4 ≤ i → sizes_at i = "undefined".
Proof.
  intros H. unfold sizes_at. destruct (i <? 0) eqn:E; [reflexivity|].
  destruct (sizes !! Z.to_nat i) as [u|] eqn:Hu; [|reflexivity].
  apply lookup_lt_Some in Hu. simpl in Hu. lia.
Qed.

(** From [1024^4] on, the text ends with [undefined], whatever the number
    before it. *)
Lemma formatFileSize_large (bytes : Z) :
  1024 ^ 4 ≤ bytes →
  ∃ number, formatFileSize bytes = number +:+ " undefined".
Proof.
  intros H. unfold formatFileSize.
  assert (0 < 1024 ^ 4) by reflexivity.
  destruct (bytes =? 0) eqn:E0; [apply Z.eqb_eq in E0; lia|].
  destruct (bytes <? 0) eqn:E1; [apply Z.ltb_lt in E1; lia|].
  cbv zeta. eexists. by rewrite sizes_at_large by by apply floor_log_k_large.
Qed.

(** C4 (the code at the failing input). At [1024^4] and at twice that the
    index is 4, at 1500 times that it is 5; [sizes] has no such entry, so the
    text shows the size scaled by [1024^i] followed by [undefined]: no GB
    unit and no magnitude above 1000. *)
Theorem C4_formatFileSize_past_table :
  formatFileSize (1024 ^ 4) = "1 undefined"
  ∧ formatFileSize (2 * 1024 ^ 4) = "2 undefined"
  ∧ formatFileSize (1500 * 1024 ^ 4) = "1.46 undefined".
Proof. repeat split; vm_compute; reflexivity. Qed.

Lemma serve_download_store (w : World) (now : Z) (id : string) :
  fileStore (serve now (GetDownload id) w).2 =
  match fileStore w !! id with
  | Some r => if TransferRecord.expiresAt r <? now
              then delete id (fileStore w) else fileStore w
  | None => fileStore w
  end.
Proof. unfold serve. simpl. rewrite handleDownload_world, resolve_store. reflexivity. Qed.

Lemma expiredKeys_spec (now : Z) (m : gmap string TransferRecord.t) (id : string) :
  id ∈ expiredKeys now m ↔ ∃ r, m !! id = Some r ∧ TransferRecord.expiresAt r < now.
Proof.
  unfold expiredKeys. rewrite elem_of_dom. split.
  - intros [r Hr]. apply map_lookup_filter_Some in Hr as [Hr Hlt]. eauto.
  - intros (r & Hr & Hlt). exists r. by apply map_lookup_filter_Some.
Qed.

(** C5 (the code at the failing input). Two entries are past their expiry.
    Over the next three days the server answers an upload, a download of an
    unknown identifier and a single-file request for one of the two entries:
    both entries are still in the store afterwards, and the file of one of
    them has even been sent. Nothing sweeps the store; an expired entry goes
    only when a download asks for its own identifier. *)
Theorem C5_expired_entries_are_not_swept :
  let day := 24 * 60 * 60 * 1000 in
  let now := clock Sample.twoStale in
  let evs := [(now + day, PostUpload (Some [Sample.report]) None None);
              (now + 2 * day, GetDownload "cccc");
              (now + 3 * day, GetDownloadFile "aaaa" "a.txt")] in
  expiredKeys now (fileStore Sample.twoStale) = {[ "aaaa"; "bbbb" ]}
  ∧ responses evs Sample.twoStale
    = [JsonUpload "7hq2m5v0cbdc41wz0tnq6s" uploadMessage 1;
       Html404;
       ResDownload "uploads/a.txt" "a.txt"]
  ∧ fileStore (run evs Sample.twoStale) !! "aaaa" = Some (Sample.stale "a.txt")
  ∧ fileStore (run evs Sample.twoStale) !! "bbbb" = Some (Sample.stale "b.txt")
  ∧ (serve (now + 4 * day) (GetDownload "aaaa") (run evs Sample.twoStale)).1 = Html410
  ∧ fileStore (serve (now + 4 * day) (GetDownload "aaaa") (run evs Sample.twoStale)).2
      !! "bbbb" = Some (Sample.stale "b.txt").
Proof.
  cbv zeta. split; [|repeat split; vm_compute; reflexivity].
  apply set_eq. intros id. rewrite expiredKeys_spec. split.
  - intros (r & Hr & _). apply elem_of_dom_2 in Hr. set_solver.
  - intros Hid. apply elem_of_union in Hid as [Hid|Hid];
      apply elem_of_singleton in Hid; subst id; eexists;
      (split; [vm_compute; reflexivity | vm_compute; reflexivity]).
Qed.

(** The upload route on a non-empty batch, at instant [T]. *)
Lemma serve_upload_nonempty (w : World) (T : Z) files email message :
  files ≠ [] →
  let w0 := (multerArray (Some files) (setClock T w)).2 in
  serve T (PostUpload (Some files) email message) w =
  (JsonUpload (nextId w0) uploadMessage (length files),
   mkWorld (<[nextId w0 :=
               TransferRecord.mk (fileInfo <$> files) email message T (uploadExpiry w0)]>
              (fileStore w))
           T (randoms w) (S (S (drawn w0))) (disk w0) (elapsed w)).
Proof.
  intros Hne. cbv zeta. unfold serve, handle, uploadRoute, bind, multerArray.
  rewrite handleUpload_nonempty by done. reflexivity.
Qed.






(** C8. Resolving an identifier that is in the store and not past its expiry
    returns the entry and leaves the world as it was: the store, and with it
    the files, [createdAt] and [expiresAt] of the entry, are the same after
    the download route and after the single-file route. *)
Theorem C8_resolve_is_read_only (w : World) (id : string) (r : TransferRecord.t) :
  fileStore w !! id = Some r →
  clock w ≤ TransferRecord.expiresAt r →
  resolve id w = (Found r, w)
  ∧ (handleDownload id w).2 = w
  ∧ fileStore (handleDownload id w).2 !! id = Some r
  ∧ (∀ filename, (handleFileDownload id filename w).2 = w).
Proof.
  intros Hr Hle. pose proof (resolve_live w id r Hr Hle) as Hres.
  split; [exact Hres|]. rewrite handleDownload_world, Hres. simpl.
  split; [reflexivity|]. split; [exact Hr|].
  intros filename. apply handleFileDownload_world.
Qed.

Lemma C8_resolve_is_read_only_witness :
  let w := setClock (500 + sevenDays) Sample.taken in
  resolve "k3j9x1q8zpa7hq2m5v0cbd" w = (Found Sample.old, w)
  ∧ (handleDownload "k3j9x1q8zpa7hq2m5v0cbd" w).2 = w.
Proof.
  cbv zeta.
  destruct (C8_resolve_is_read_only (setClock (500 + sevenDays) Sample.taken)
              "k3j9x1q8zpa7hq2m5v0cbd" Sample.old) as (Hres & Hworld & _);
    [vm_compute; reflexivity | vm_compute; discriminate |].
  split; [exact Hres | exact Hworld].
Defined.

(** C9. When the identifier resolves to an entry: with exactly one file the
    download route answers with that file's path and original name, not with
    a page; with more than one file it answers with a page that has one item
    per file, in the order of the files, each linking to
    [/download-file/<identifier>/<storedName>] under the file's original
    name. *)
Theorem C9_single_file_or_manifest
    (w w' : World) (id : string) (r : TransferRecord.t) :
  resolve id w = (Found r, w') →
  (∀ file, TransferRecord.files r = [file] →
     (handleDownload id w).1
     = ResDownload (FileRecord.path file) (FileRecord.originalName file))
  ∧ ((1 < length (TransferRecord.files r))%nat →
     ∃ items,
       (handleDownload id w).1 = ManifestPage items
       ∧ length items = length (TransferRecord.files r)
       ∧ ∀ i file, TransferRecord.files r !! i = Some file →
           items !! i =
           Some (mkItem ("/download-file/" +:+ id +:+ "/" +:+ FileRecord.storedName file)
                        (FileRecord.originalName file)
                        (formatFileSize (FileRecord.size file)))).
Proof.
  intros Hres. unfold handleDownload, bind. rewrite Hres. split.
  - intros file Hfile. rewrite Hfile. reflexivity.
  - intros Hlen. exists (manifestItem id <$> TransferRecord.files r).
    split; [|split].
    + destruct (TransferRecord.files r) as [|f [|g fs]]; simpl in *; [lia | lia | reflexivity].
    + apply length_fmap.
    + intros i file Hi. rewrite list_lookup_fmap, Hi. reflexivity.
Qed.

Lemma C9_single_file_or_manifest_witness :
  let many := (serve 1000 (PostUpload (Some [Sample.report; Sample.photo; Sample.notes])
                                      None None) Sample.fresh).2 in
  let one := (serve 1000 (PostUpload (Some [Sample.report]) None None) Sample.fresh).2 in
  (handleDownload "7hq2m5v0cbdc41wz0tnq6s" one).1
  = ResDownload "uploads/1000-42.pdf" "report.pdf"
  ∧ ∃ items,
      (handleDownload "9d2e8r5ylmf9d2e8r5ylmf" many).1 = ManifestPage items
      ∧ length items = 3%nat
      ∧ items !! 1%nat
        = Some (mkItem "/download-file/9d2e8r5ylmf9d2e8r5ylmf/1000-77.png"
                       "photo.png" "1.46 MB").
Proof.
  cbv zeta.
  set (many := (serve 1000 (PostUpload (Some [Sample.report; Sample.photo; Sample.notes])
                                       None None) Sample.fresh).2).
  set (one := (serve 1000 (PostUpload (Some [Sample.report]) None None) Sample.fresh).2).
  assert (resolve "9d2e8r5ylmf9d2e8r5ylmf" many
          = (Found (TransferRecord.mk
                      [fileInfo Sample.report; fileInfo Sample.photo; fileInfo Sample.notes]
                      None None 1000 (1000 + sevenDays)), many)) as Hmany
    by (vm_compute; reflexivity).
  assert (resolve "7hq2m5v0cbdc41wz0tnq6s" one
          = (Found (TransferRecord.mk [fileInfo Sample.report]
                      None None 1000 (1000 + sevenDays)), one)) as Hone
    by (vm_compute; reflexivity).
  split.
  - apply (proj1 (C9_single_file_or_manifest _ _ _ _ Hone) (fileInfo Sample.report)).
    reflexivity.
  - destruct (proj2 (C9_single_file_or_manifest _ _ _ _ Hmany)) as (items & Hpage & Hlen & Hitems);
      [simpl; lia|].
    exists items. split; [exact Hpage|]. split; [exact Hlen|].
    apply (Hitems 1%nat (fileInfo Sample.photo)). reflexivity.
Defined.

(** C10. An upload with no files, whether [req.files] is absent or empty, is
    answered with status 400 and leaves the world as it was: nothing is
    inserted in the store and no random value is drawn. *)
Theorem C10_empty_upload_rejected
    (w : World) (T : Z) (email message : option string) :
  handleUpload None email message w = (Json400 "Please select files to upload", w)
  ∧ handleUpload (Some []) email message w = (Json400 "Please select files to upload", w)
  ∧ (∀ files, files = None ∨ files = Some [] →
       (serve T (PostUpload files email message) w).1
       = Json400 "Please select files to upload"
       ∧ fileStore (serve T (PostUpload files email message) w).2 = fileStore w
       ∧ drawn (serve T (PostUpload files email message) w).2 = drawn w
       ∧ disk (serve T (PostUpload files email message) w).2 = disk w).
Proof.
  split; [reflexivity|]. split; [reflexivity|].
  intros files [->| ->]; unfold serve; simpl;
    (split; [reflexivity|]); (split; [reflexivity|]);
    (split; [apply Nat.add_0_r | apply (left_id_L ∅ (∪))]).
Qed.

(** ** Further properties of the routes *)

(** The store after one request, by cases on the request. *)
Lemma serve_store_cases (w : World) (t : Z) (req : Request) :
  fileStore (serve t req w).2 = fileStore w
  ∨ (∃ id, req = GetDownload id ∧ fileStore (serve t req w).2 = delete id (fileStore w)
           ∧ ∃ r, fileStore w !! id = Some r ∧ TransferRecord.expiresAt r < t)
  ∨ (∃ id files email message,
       req = PostUpload (Some files) email message ∧ files ≠ []
       ∧ (serve t req w).1 = JsonUpload id uploadMessage (length files)
       ∧ fileStore (serve t req w).2
         = <[id := TransferRecord.mk (fileInfo <$> files) email message t
                     (uploadExpiry (multerArray (Some files) (setClock t w)).2)]>
             (fileStore w)).
Proof.
  destruct req as [[[|f fs]|] email message|id|id filename].
  - left. reflexivity.
  - right. right. eexists _, (f :: fs), email, message.
    rewrite serve_upload_nonempty by done. simpl. eauto.
  - left. reflexivity.
  - rewrite serve_download_store.
    destruct (fileStore w !! id) as [r|] eqn:Hr; [|by left].
    destruct (TransferRecord.expiresAt r <? t) eqn:Hlt; [|by left].
    right. left. exists id. apply Z.ltb_lt in Hlt. eauto.
  - left. unfold serve. simpl. by rewrite handleFileDownload_world.
Qed.

Lemma serve_storeOk (w : World) (t : Z) (req : Request) :
  storeOk w → storeOk (serve t req w).2.
Proof.
  intros Hok id r.
  destruct (serve_store_cases w t req)
    as [->|[(id' & _ & -> & _)|(id' & files & email & message & _ & Hne & _ & ->)]].
  - apply Hok.
  - intros Hr. apply lookup_delete_Some in Hr as [_ Hr]. by apply (Hok id).
  - intros Hr. apply lookup_insert_Some in Hr as [[_ <-]|[_ Hr]]; [|by apply (Hok id)].
    split; simpl; [by destruct files | unfold uploadExpiry; simpl; lia].
Qed.

Lemma run_storeOk (evs : list (Z * Request)) (w : World) :
  storeOk w → storeOk (run evs w).
Proof.
  revert w. induction evs as [|[t req] evs IH]; intros w Hok; [done|].
  simpl. apply IH. by apply serve_storeOk.
Qed.

Lemma empty_storeOk (w : World) : fileStore w = ∅ → storeOk w.
Proof. intros Hw id r. by rewrite Hw, lookup_empty. Qed.

(** X1. In a process started with an empty store, an identifier that no
    upload has been answered with is unknown to both download routes: they
    answer not found, at every instant and for every file name. *)
Theorem X1_never_issued_identifier_not_found
    (w : World) (evs : list (Z * Request)) (id : string) :
  fileStore w = ∅ →
  reissues id evs w = false →
  ∀ t filename,
    (serve t (GetDownload id) (run evs w)).1 = Html404
    ∧ (serve t (GetDownloadFile id filename) (run evs w)).1 = Text404 "File not found"
    ∧ (serve t (GetDownload id) (run evs w)).2 = setClock t (run evs w).
Proof.
  intros Hw Hre t filename.
  assert (fileStore (setClock t (run evs w)) !! id = None) as Habs.
  { simpl. apply run_absent; [by rewrite Hw, lookup_empty | done]. }
  unfold serve. simpl handle.
  split; [by apply handleDownload_absent|].
  split; [by apply handleFileDownload_absent|].
  by rewrite handleDownload_world, resolve_absent.
Qed.

Lemma X1_never_issued_identifier_not_found_witness :
  let later :=
    run [(1000, PostUpload (Some [Sample.report]) None None);
         (2000, GetDownload "7hq2m5v0cbdc41wz0tnq6s")] Sample.fresh in
  (serve 3000 (GetDownload "k3j9x1q8zpa7hq2m5v0cbd") later).1 = Html404
  ∧ (serve 3000 (GetDownloadFile "k3j9x1q8zpa7hq2m5v0cbd" "1000-42.pdf") later).1
    = Text404 "File not found".
Proof.
  cbv zeta.
  destruct (X1_never_issued_identifier_not_found Sample.fresh
              [(1000, PostUpload (Some [Sample.report]) None None);
               (2000, GetDownload "7hq2m5v0cbdc41wz0tnq6s")]
              "k3j9x1q8zpa7hq2m5v0cbd" eq_refl eq_refl 3000 "1000-42.pdf")
    as (H1 & H2 & _).
  split; [exact H1 | exact H2].
Defined.



(** X3. In a process started with an empty store, the download route never
    shows a page with fewer than two files: an entry with one file is sent
    directly, and no entry is empty. *)
Theorem X3_manifest_has_two_items
    (w : World) (evs : list (Z * Request)) (t : Z) (id : string)
    (items : list ManifestItem) :
  fileStore w = ∅ →
  (serve t (GetDownload id) (run evs w)).1 = ManifestPage items →
  (2 ≤ length items)%nat.
Proof.
  intros Hw. pose proof (run_storeOk evs w (empty_storeOk w Hw)) as Hok.
  unfold serve. simpl handle. set (w' := setClock t (run evs w)).
  destruct (fileStore w' !! id) as [r|] eqn:Hr;
    [|by rewrite handleDownload_absent].
  unfold handleDownload, bind.
  destruct (Z.lt_ge_cases (TransferRecord.expiresAt r) (clock w')) as [Hlt|Hge].
  - by rewrite (resolve_expired _ _ _ Hr Hlt).
  - rewrite (resolve_live _ _ _ Hr Hge). destruct (Hok id r Hr) as [Hne _].
    destruct (TransferRecord.files r) as [|f [|g fs]]; [done | discriminate |].
    simpl. intros [= <-]. simpl. lia.
Qed.

Lemma X3_manifest_has_two_items_witness :
  (2 ≤ length [uploadedItem "c41wz0tnq6s9d2e8r5ylmf" Sample.report;
               uploadedItem "c41wz0tnq6s9d2e8r5ylmf" Sample.photo])%nat.
Proof.
  apply (X3_manifest_has_two_items Sample.fresh
           [(1000, PostUpload (Some [Sample.report; Sample.photo]) None None)]
           2000 "c41wz0tnq6s9d2e8r5ylmf").
  - reflexivity.
  - vm_compute. reflexivity.
Defined.

Lemma find_storedName_Some (filename : string) (files : list FileRecord.t) (f : FileRecord.t) :
  List.find (λ g, bool_decide (FileRecord.storedName g = filename)) files = Some f →
  f ∈ files ∧ FileRecord.storedName f = filename.
Proof.
  intros H. apply List.find_some in H as [Hin Hname].
  split; [by apply list_elem_of_In | by apply bool_decide_eq_true in Hname].
Qed.

Lemma find_storedName_None (filename : string) (files : list FileRecord.t) :
  List.find (λ g, bool_decide (FileRecord.storedName g = filename)) files = None ↔
  ∀ f, f ∈ files → FileRecord.storedName f ≠ filename.
Proof.
  split.
  - intros H f Hf. apply list_elem_of_In in Hf.
    pose proof (List.find_none _ _ H f Hf) as Hb. by apply bool_decide_eq_false in Hb.
  - intros H. induction files as [|g gs IH]; [reflexivity|]. simpl.
    rewrite bool_decide_eq_false_2 by (apply H; left).
    apply IH. intros f Hf. apply H. by right.
Qed.

(** The first file with a given stored name is the one [find] returns. *)
Lemma find_storedName_first (files : list FileRecord.t) (i : nat) (f : FileRecord.t) :
  files !! i = Some f →
  (∀ j g, (j < i)%nat → files !! j = Some g →
          FileRecord.storedName g ≠ FileRecord.storedName f) →
  List.find (λ g, bool_decide (FileRecord.storedName g = FileRecord.storedName f)) files
  = Some f.
Proof.
  revert i. induction files as [|g gs IH]; intros i Hi Hbefore; [done|].
  destruct i as [|i]; simpl in *.
  - injection Hi as ->. by rewrite bool_decide_eq_true_2.
  - rewrite bool_decide_eq_false_2 by (apply (Hbefore 0%nat g); [lia | done]).
    apply (IH i Hi). intros j g' Hj Hg'. apply (Hbefore (S j) g'); [lia | done].
Qed.

Lemma handleFileDownload_first_match
    (w : World) (id : string) (r : TransferRecord.t) (i : nat) (f : FileRecord.t) :
  fileStore w !! id = Some r →
  TransferRecord.files r !! i = Some f →
  (∀ j g, (j < i)%nat → TransferRecord.files r !! j = Some g →
          FileRecord.storedName g ≠ FileRecord.storedName f) →
  (handleFileDownload id (FileRecord.storedName f) w).1
  = ResDownload (FileRecord.path f) (FileRecord.originalName f).
Proof.
  intros Hr Hi Hbefore. unfold handleFileDownload, bind, storeGet. rewrite Hr.
  by rewrite (find_storedName_first _ i f Hi Hbefore).
Qed.

(** X4. The single-file route only ever sends a file of the addressed entry
    whose stored name is the one asked for, under that file's original name;
    it answers not found exactly when the identifier is unknown or no file of
    the entry has that stored name; and it never changes the world. *)
Theorem X4_file_route_sends_only_named_file (w : World) (id filename : string) :
  (∀ path name,
     (handleFileDownload id filename w).1 = ResDownload path name →
     ∃ r f, fileStore w !! id = Some r ∧ f ∈ TransferRecord.files r
            ∧ FileRecord.storedName f = filename
            ∧ path = FileRecord.path f ∧ name = FileRecord.originalName f)
  ∧ ((handleFileDownload id filename w).1 = Text404 "File not found" ↔
     (fileStore w !! id = None
      ∨ ∃ r, fileStore w !! id = Some r
             ∧ ∀ f, f ∈ TransferRecord.files r → FileRecord.storedName f ≠ filename))
  ∧ (handleFileDownload id filename w).2 = w.
Proof.
  split; [|split; [|apply handleFileDownload_world]];
    unfold handleFileDownload, bind, storeGet;
    destruct (fileStore w !! id) as [r|] eqn:Hr.
  - destruct (List.find _ _) as [f|] eqn:Hf; [|discriminate].
    simpl. intros path name [= <- <-].
    apply find_storedName_Some in Hf as [Hin Hname]. by exists r, f.
  - discriminate.
  - destruct (List.find _ _) as [f|] eqn:Hf; simpl.
    + split; [discriminate|]. intros [?|(r' & [= <-] & Hnone)]; [done|].
      apply find_storedName_Some in Hf as [Hin Hname]. by destruct (Hnone f Hin).
    + split; [|done]. intros _. right. exists r. split; [done|].
      by apply find_storedName_None.
  - simpl. split; [by left | done].
Qed.

(** X5. When an entry holds several files under the same stored name, the
    single-file route sends the first of them in upload order; a file is
    reachable by its stored name when no earlier file of the entry has the
    same one. *)
Theorem X5_file_route_sends_first_match
    (w : World) (id : string) (r : TransferRecord.t) (i : nat) (f : FileRecord.t) :
  fileStore w !! id = Some r →
  TransferRecord.files r !! i = Some f →
  (∀ j g, (j < i)%nat → TransferRecord.files r !! j = Some g →
          FileRecord.storedName g ≠ FileRecord.storedName f) →
  (handleFileDownload id (FileRecord.storedName f) w).1
  = ResDownload (FileRecord.path f) (FileRecord.originalName f).
Proof.
  apply handleFileDownload_first_match.
Qed.

Lemma X5_file_route_sends_first_match_witness :
  let w := (serve 1000 (PostUpload (Some [Sample.report; Sample.photo]) None None)
                  Sample.fresh).2 in
  (handleFileDownload "c41wz0tnq6s9d2e8r5ylmf" "1000-77.png" w).1
  = ResDownload "uploads/1000-77.png" "photo.png".
Proof.
  cbv zeta.
  apply (X5_file_route_sends_first_match _ "c41wz0tnq6s9d2e8r5ylmf"
           (TransferRecord.mk [fileInfo Sample.report; fileInfo Sample.photo]
                              None None 1000 (1000 + sevenDays))
           1%nat (fileInfo Sample.photo)).
  - vm_compute. reflexivity.
  - reflexivity.
  - intros j g Hj Hg. destruct j as [|j]; [|lia].
    injection Hg as <-. discriminate.
Defined.

(** X6. Every file of an uploaded batch whose stored names are pairwise
    distinct can be fetched by its stored name with the returned identifier,
    at any instant up to seven days later: the answer is that file's path and
    original name. *)
Theorem X6_upload_then_file_download
    (w : World) (T t : Z) (files : list MulterFile.t) (email message : option string)
    (i : nat) (file : MulterFile.t) :
  NoDup (MulterFile.filename <$> files) →
  files !! i = Some file →
  t ≤ T + sevenDays →
  ∃ id,
    let up := serve T (PostUpload (Some files) email message) w in
    up.1 = JsonUpload id uploadMessage (length files)
    ∧ (serve t (GetDownloadFile id (MulterFile.filename file)) up.2).1
      = ResDownload (MulterFile.path file) (MulterFile.originalname file).
Proof.
  intros Hnodup Hi _. eexists. cbv zeta.
  assert (files ≠ []) as Hne by (intros ->; done).
  rewrite serve_upload_nonempty by done. simpl. split; [reflexivity|].
  unfold serve. simpl handle.
  eapply (handleFileDownload_first_match _ _ _ i (fileInfo file)).
  - simpl. apply lookup_insert_eq.
  - simpl. by rewrite list_lookup_fmap, Hi.
  - simpl. intros j g Hj Hg Heq. rewrite list_lookup_fmap in Hg.
    destruct (files !! j) as [file'|] eqn:Hj'; [|done]. injection Hg as <-. simpl in Heq.
    assert (j = i) as Hji; [|lia].
    apply (NoDup_lookup _ j i (MulterFile.filename file) Hnodup);
      rewrite list_lookup_fmap; [rewrite Hj'; simpl; by rewrite Heq | by rewrite Hi].
Qed.

Lemma X6_upload_then_file_download_witness :
  ∃ id,
    (serve 1000 (PostUpload (Some [Sample.report; Sample.photo; Sample.notes]) None None)
           Sample.fresh).1 = JsonUpload id uploadMessage 3
    ∧ (serve (1000 + sevenDays) (GetDownloadFile id "1000-91.txt")
         (serve 1000 (PostUpload (Some [Sample.report; Sample.photo; Sample.notes])
                                 None None) Sample.fresh).2).1
      = ResDownload "uploads/1000-91.txt" "notes.txt".
Proof.
  apply (X6_upload_then_file_download Sample.fresh 1000 (1000 + sevenDays)
           [Sample.report; Sample.photo; Sample.notes] None None 2%nat Sample.notes).
  - refine (bool_decide_unpack _ _). vm_compute. exact I.
  - reflexivity.
  - lia.
Defined.



(** X8. An entry stays in the store, unchanged, through any sequence of
    requests in which no upload is answered with its identifier and no
    download of its identifier arrives after its expiry: requests for other
    identifiers, single-file requests and the expiry of other entries leave
    it alone. *)
Theorem X8_entry_survives_other_requests
    (evs : list (Z * Request)) (w : World) (id : string) (r : TransferRecord.t) :
  fileStore w !! id = Some r →
  reissues id evs w = false →
  (∀ t, (t, GetDownload id) ∈ evs → t ≤ TransferRecord.expiresAt r) →
  fileStore (run evs w) !! id = Some r.
Proof.
  revert w. induction evs as [|[t req] evs IH]; intros w Hr Hre Hlive; [done|].
  simpl in *. apply orb_false_iff in Hre as [Hhere Hlater].
  apply IH; [|done|].
  - destruct (serve_store_cases w t req)
      as [->|[(id' & -> & -> & r' & Hr' & Hlt)|(id' & fs & e & m & _ & _ & Hresp & ->)]].
    + done.
    + destruct (decide (id' = id)) as [->|Hne].
      * assert (t ≤ TransferRecord.expiresAt r) by (apply Hlive; left).
        rewrite Hr in Hr'. injection Hr' as <-. lia.
      * by rewrite lookup_delete_ne.
    + rewrite Hresp in Hhere. apply bool_decide_eq_false in Hhere.
      by rewrite lookup_insert_ne.
  - intros t' Ht'. apply Hlive. by right.
Qed.

Lemma X8_entry_survives_other_requests_witness :
  fileStore
    (run [(600000000, GetDownload "aaaa");
          (600000001, PostUpload (Some [Sample.report]) None None);
          (600000002, GetDownloadFile "bbbb" "b.txt");
          (604800000, GetDownload "bbbb")] Sample.twoStale) !! "bbbb"
  = Some (Sample.stale "b.txt").
Proof.
  apply X8_entry_survives_other_requests.
  - vm_compute. reflexivity.
  - vm_compute. reflexivity.
  - intros t Ht. change (t ≤ 604800000).
    repeat (apply elem_of_cons in Ht as [Ht|Ht]; [apply (f_equal fst) in Ht; simpl in Ht; lia |]).
    by apply elem_of_nil in Ht.
Defined.

Lemma serve_disk_grows (w : World) (t : Z) (req : Request) :
  disk w ⊆ disk (serve t req w).2.
Proof.
  destruct req as [files email message|id|id filename].
  - unfold serve. simpl handle. destruct files as [files|].
    + rewrite uploadRoute_disk. simpl. apply union_subseteq_r.
    + simpl. apply union_subseteq_r.
  - by rewrite download_keeps_disk.
  - by rewrite download_keeps_disk.
Qed.

(** X9. No request ever removes a stored file: after any sequence of
    requests, every path that was on the disk is still there, and so is the
    path of every file of an accepted upload. *)
Theorem X9_stored_files_are_never_deleted
    (evs evs' : list (Z * Request)) (w : World) (T : Z)
    (files : list MulterFile.t) (email message : option string) :
  disk w ⊆ disk (run evs w)
  ∧ ∀ file, file ∈ files →
      MulterFile.path file
      ∈ disk (run evs' (serve T (PostUpload (Some files) email message) (run evs w)).2).
Proof.
  assert (∀ l v, disk v ⊆ disk (run l v)) as Hgrow.
  { induction l as [|[t req] l IH]; intros v; [done|].
    simpl. etrans; [apply (serve_disk_grows v t req) | apply IH]. }
  split; [apply Hgrow|]. intros file Hfile. apply Hgrow.
  unfold serve. simpl handle. rewrite uploadRoute_disk. apply elem_of_union_l.
  apply elem_of_list_to_set, list_elem_of_fmap. by exists file.
Qed.

(** X10. The store never holds more entries than it held at the start plus
    the number of uploads answered with an identifier since: downloads add
    nothing, and an upload adds at most one entry. *)
Theorem X10_store_size_bounded_by_uploads (evs : list (Z * Request)) (w : World) :
  (size (fileStore (run evs w)) ≤ size (fileStore w) + uploadsAnswered evs w)%nat.
Proof.
  revert w. induction evs as [|[t req] evs IH]; intros w; simpl; [lia|].
  etrans; [apply IH|].
  destruct (serve_store_cases w t req)
    as [->|[(id' & _ & -> & _)|(id' & fs & e & m & _ & _ & -> & ->)]].
  - lia.
  - pose proof (map_subseteq_size _ _ (delete_subseteq (fileStore w) id')). lia.
  - rewrite map_size_insert. destruct (fileStore w !! id'); simpl; lia.
Qed.




Lemma floor_log_k_scaled (n i : Z) :
  1 ≤ n < 1024 → 0 ≤ i → floor_log_k (n * 1024 ^ i) = i.
Proof.
  intros Hn Hi. unfold floor_log_k.
  change 1024 with (2 ^ 10). rewrite <- Z.pow_mul_r by lia.
  rewrite Z.log2_mul_pow2 by lia.
  assert (0 ≤ Z.log2 n < 10) as Hlog.
  { split; [apply Z.log2_nonneg|]. apply Z.log2_lt_pow2; [lia|]. change (2 ^ 10) with 1024. lia. }
  rewrite Z.mul_comm, Z.add_comm, Z.div_add by lia.
  rewrite Z.div_small by lia. lia.
Qed.

Lemma toFixed2_scaled (n d : Z) : 0 < d → toFixed2 (n * d) d = 100 * n.
Proof.
  intros Hd. unfold toFixed2.
  replace (200 * (n * d) + d) with ((200 * n + 1) * d) by lia.
  rewrite Z.div_mul_cancel_r by lia.
  replace (200 * n + 1) with (1 + (100 * n) * 2) by lia.
  rewrite Z.div_add by lia. reflexivity.
Qed.

Lemma hundredthsToString_whole (n : Z) : hundredthsToString (100 * n) = pretty n.
Proof.
  unfold hundredthsToString.
  replace (100 * n) with (n * 100) by lia.
  rewrite Z.mod_mul, Z.div_mul by lia. reflexivity.
Qed.

(** X12. A size that is a whole number [n], from 1 to 1023, of bytes, KB, MB
    or GB (powers 0 to 3 of 1024) is shown as that number, with no decimals,
    followed by the unit. *)
Theorem X12_formatFileSize_whole_units (n i : Z) :
  1 ≤ n < 1024 →
  0 ≤ i ≤ 3 →
  ∃ u, sizes !! Z.to_nat i = Some u
       ∧ formatFileSize (n * 1024 ^ i) = pretty n +:+ " " +:+ u.
Proof.
  intros Hn Hi.
  assert (0 < 1024 ^ i) as Hd by (apply Z.pow_pos_nonneg; lia).
  unfold formatFileSize.
  destruct (n * 1024 ^ i =? 0) eqn:E0; [apply Z.eqb_eq in E0; nia|].
  destruct (n * 1024 ^ i <? 0) eqn:E1; [apply Z.ltb_lt in E1; nia|].
  cbv zeta. rewrite floor_log_k_scaled by lia. unfold k.
  rewrite toFixed2_scaled, hundredthsToString_whole by done.
  unfold sizes_at. destruct (i <? 0) eqn:E2; [apply Z.ltb_lt in E2; lia|].
  assert (i = 0 ∨ i = 1 ∨ i = 2 ∨ i = 3) as [-> | [-> | [-> | ->]]] by lia;
    eexists; (split; [reflexivity|reflexivity]).
Qed.

Lemma X12_formatFileSize_whole_units_witness :
  ∃ u, sizes !! Z.to_nat 3 = Some u
       ∧ formatFileSize (5 * 1024 ^ 3) = pretty 5 +:+ " " +:+ u.
Proof. apply X12_formatFileSize_whole_units; lia. Defined.

(** The power of 1024 chosen by [formatFileSize] brackets the size. *)
Lemma floor_log_k_bracket (bytes : Z) :
  1 ≤ bytes →
  0 ≤ floor_log_k bytes
  ∧ 1024 ^ floor_log_k bytes ≤ bytes < 1024 * 1024 ^ floor_log_k bytes.
Proof.
  intros Hb. unfold floor_log_k.
  pose proof (Z.log2_spec bytes ltac:(lia)) as [Hlo Hhi].
  pose proof (Z.log2_nonneg bytes) as Hl.
  set (l := Z.log2 bytes) in *. set (i := l / 10).
  assert (0 ≤ i) as Hi by (apply Z.div_pos; lia).
  assert (10 * i ≤ l < 10 * i + 10) as [Hil Hiu].
  { pose proof (Z.div_mod l 10 ltac:(lia)). pose proof (Z.mod_pos_bound l 10 ltac:(lia)).
    subst i. lia. }
  split; [done|].
  change 1024 with (2 ^ 10). rewrite <- Z.pow_mul_r by lia.
  rewrite <- Z.pow_add_r by lia. split.
  - etrans; [|exact Hlo]. apply Z.pow_le_mono_r; lia.
  - eapply Z.lt_le_trans; [exact Hhi|]. apply Z.pow_le_mono_r; lia.
Qed.

(** X13. For every size from one byte to just under [1024^4], the unit is
    one of the four of the table and the number shown, in hundredths, is
    between 1.00 and 1024.00: the size divided by the largest power of 1024
    not above it, rounded to two decimals. *)
Theorem X13_formatFileSize_in_table (bytes : Z) :
  1 ≤ bytes < 1024 ^ 4 →
  ∃ i u h,
    0 ≤ i ≤ 3
    ∧ 1024 ^ i ≤ bytes < 1024 * 1024 ^ i
    ∧ sizes !! Z.to_nat i = Some u
    ∧ h = toFixed2 bytes (1024 ^ i)
    ∧ 100 ≤ h ≤ 102400
    ∧ formatFileSize bytes = hundredthsToString h +:+ " " +:+ u.
Proof.
  intros [Hlo Hhi].
  destruct (floor_log_k_bracket bytes Hlo) as (Hi & Hd & Hu).
  set (i := floor_log_k bytes) in *.
  assert (i ≤ 3) as Hi3.
  { destruct (Z.le_gt_cases i 3) as [|Hbig]; [done|]. exfalso.
    assert (1024 ^ 4 ≤ 1024 ^ i) by (apply Z.pow_le_mono_r; lia). lia. }
  assert (0 < 1024 ^ i) as Hpos by (apply Z.pow_pos_nonneg; lia).
  assert (∃ u, sizes !! Z.to_nat i = Some u ∧ sizes_at i = u) as (u & Hu1 & Hu2).
  { unfold sizes_at. destruct (i <? 0) eqn:E2; [apply Z.ltb_lt in E2; lia|].
    assert (i = 0 ∨ i = 1 ∨ i = 2 ∨ i = 3) as [-> | [-> | [-> | ->]]] by lia;
      eexists; (split; reflexivity). }
  exists i, u, (toFixed2 bytes (1024 ^ i)).
  split; [lia|]. split; [lia|]. split; [done|]. split; [done|]. split.
  - unfold toFixed2. split.
    + apply Z.div_le_lower_bound; lia.
    + apply Z.lt_succ_r. apply Z.div_lt_upper_bound; lia.
  - unfold formatFileSize.
    destruct (bytes =? 0) eqn:E0; [apply Z.eqb_eq in E0; lia|].
    destruct (bytes <? 0) eqn:E1; [apply Z.ltb_lt in E1; lia|].
    cbv zeta. fold i. by rewrite Hu2.
Qed.

Lemma X13_formatFileSize_in_table_witness :
  ∃ i u h,
    0 ≤ i ≤ 3
    ∧ 1024 ^ i ≤ 1048575 < 1024 * 1024 ^ i
    ∧ sizes !! Z.to_nat i = Some u
    ∧ h = toFixed2 1048575 (1024 ^ i)
    ∧ 100 ≤ h ≤ 102400
    ∧ formatFileSize 1048575 = hundredthsToString h +:+ " " +:+ u.
Proof. apply X13_formatFileSize_in_table. vm_compute. split; [discriminate | reflexivity]. Defined.

Lemma pretty_N_char_isDigit (x : N) : isDigit (pretty_N_char x) = true.
Proof.
  unfold pretty_N_char. repeat case_match; reflexivity.
Qed.

Lemma pretty_N_go_allDigits (x : N) (s : string) :
  allDigits s = true → allDigits (pretty_N_go x s) = true.
Proof.
  revert s. induction (N.lt_wf_0 x) as [x _ IH]; intros s Hs.
  destruct (decide (x = 0)%N) as [->|Hx]; [by rewrite pretty_N_go_0|].
  rewrite pretty_N_go_step by lia. apply IH.
  - apply N.div_lt; lia.
  - simpl. by rewrite pretty_N_char_isDigit, Hs.
Qed.

Lemma pretty_Z_allDigits (z : Z) : 0 ≤ z → allDigits (pretty z) = true.
Proof.
  intros Hz. destruct z as [|p|p]; [reflexivity | | lia].
  unfold pretty, pretty_Z, pretty, pretty_positive, pretty, pretty_N.
  destruct (decide (N.pos p = 0)%N); [reflexivity|].
  by apply pretty_N_go_allDigits.
Qed.

(** A run of digits ends where the string ends or at the first character
    that is not a digit. *)
Lemma digits_prefix_inj (a b s s' : string) :
  allDigits a = true → allDigits b = true →
  (s = "" ∨ ∃ c r, s = String c r ∧ isDigit c = false) →
  (s' = "" ∨ ∃ c r, s' = String c r ∧ isDigit c = false) →
  a +:+ s = b +:+ s' → a = b ∧ s = s'.
Proof.
  revert b. induction a as [|x a IH]; intros [|y b] Ha Hb Hs Hs' Heq.
  - done.
  - change (s = String y (b +:+ s')) in Heq. exfalso.
    simpl in Hb. apply andb_true_iff in Hb as [Hy _].
    destruct Hs as [->|(c & r & -> & Hc)]; [done|]. injection Heq as -> _. congruence.
  - change (String x (a +:+ s) = s') in Heq. exfalso.
    simpl in Ha. apply andb_true_iff in Ha as [Hx _].
    destruct Hs' as [->|(c & r & -> & Hc)]; [done|]. injection Heq as -> _. congruence.
  - change (String x (a +:+ s) = String y (b +:+ s')) in Heq.
    injection Heq as -> Heq. simpl in Ha, Hb.
    apply andb_true_iff in Ha as [_ Ha]. apply andb_true_iff in Hb as [_ Hb].
    destruct (IH b Ha Hb Hs Hs' Heq) as [-> ->]. done.
Qed.

(** X14. Two uploaded files get the same stored name only when they are
    named at the same millisecond, with the same rounded random value, and
    their original names have the same extension. *)
Theorem X14_uniqueName_injective (t1 t2 j1 j2 : Z) (e1 e2 : string) :
  0 ≤ t1 → 0 ≤ t2 → 0 ≤ j1 → 0 ≤ j2 →
  extension e1 → extension e2 →
  uniqueName t1 j1 e1 = uniqueName t2 j2 e2 →
  t1 = t2 ∧ j1 = j2 ∧ e1 = e2.
Proof.
  intros Ht1 Ht2 Hj1 Hj2 He1 He2 Heq. unfold uniqueName in Heq.
  assert (∀ e, extension e → e = "" ∨ ∃ c r, e = String c r ∧ isDigit c = false) as Hstop.
  { intros e [->|[r ->]]; [by left | right]. eexists _, r. split; reflexivity. }
  apply digits_prefix_inj in Heq as [Ht Heq];
    [| by apply pretty_Z_allDigits | by apply pretty_Z_allDigits
     | right; eexists _, _; split; reflexivity
     | right; eexists _, _; split; reflexivity].
  apply (inj pretty) in Ht.
  apply (inj (String.append "-")) in Heq.
  apply digits_prefix_inj in Heq as [Hj He];
    [| by apply pretty_Z_allDigits | by apply pretty_Z_allDigits
     | by apply Hstop | by apply Hstop].
  apply (inj pretty) in Hj. done.
Qed.

Lemma X14_uniqueName_injective_witness :
  1700000000000 = 1700000000000 ∧ 123456789 = 123456789 ∧ ".pdf" = ".pdf".
Proof.
  apply (X14_uniqueName_injective 1700000000000 1700000000000 123456789 123456789
           ".pdf" ".pdf"); try lia.
  - right. by exists "pdf".
  - right. by exists "pdf".
  - reflexivity.
Defined.

Example uniqueName_sample : uniqueName 1700000000000 42 ".pdf" = "1700000000000-42.pdf".
Proof. vm_compute. reflexivity. Qed.

(** Two worlds that differ only in the e-mail addresses, messages and
    creation dates of their entries answer a request alike, and still differ
    only there afterwards. *)
Lemma serve_blank (t : Z) (req req' : Request) (w w' : World) :
  blankRequest req = blankRequest req' →
  blankWorld w = blankWorld w' →
  (serve t req w).1 = (serve t req' w').1
  ∧ blankWorld (serve t req w).2 = blankWorld (serve t req' w').2.
Proof.
  intros Hreq Hw.
  destruct w as [st c rn d dk el], w' as [st' c' rn' d' dk' el'].
  unfold blankWorld in Hw. simpl in Hw. injection Hw as Hs <- <- <- <- <-.
  assert (∀ id, blankEntry <$> (st !! id) = blankEntry <$> (st' !! id)) as Hlook.
  { intros id. by rewrite <- !lookup_fmap, Hs. }
  destruct req as [files email message|id|id filename];
    destruct req' as [files' email' message'|id'|id' filename']; try discriminate;
    simpl in Hreq.
  - injection Hreq as <-. destruct files as [[|f fs]|].
    + split; [reflexivity|]. unfold serve, blankWorld. simpl. by rewrite Hs.
    + rewrite !serve_upload_nonempty by done. unfold blankWorld, nextId, uploadExpiry.
      simpl. split; [reflexivity|]. f_equal.
      rewrite !fmap_insert. by rewrite Hs.
    + split; [reflexivity|]. unfold serve, blankWorld. simpl. by rewrite Hs.
  - injection Hreq as <-. unfold serve. simpl handle.
    rewrite !handleDownload_world. unfold handleDownload, bind.
    specialize (Hlook id).
    destruct (st !! id) as [r|] eqn:Hr1, (st' !! id) as [r'|] eqn:Hr2;
      try discriminate; simpl in Hlook.
    + injection Hlook as Hfiles Hexp.
      destruct (Z.lt_ge_cases (TransferRecord.expiresAt r) t) as [Hlt|Hge].
      * rewrite (resolve_expired (setClock t _) id r), (resolve_expired (setClock t _) id r')
          by (done || simpl; lia).
        split; [reflexivity|]. unfold blankWorld. simpl.
        rewrite !fmap_delete. by rewrite Hs.
      * rewrite (resolve_live (setClock t _) id r), (resolve_live (setClock t _) id r')
          by (done || simpl; lia).
        rewrite Hfiles. split; [by destruct (TransferRecord.files r') as [|f [|g fs]]|].
        unfold blankWorld. simpl. by rewrite Hs.
    + rewrite !resolve_absent by done. split; [reflexivity|].
      unfold blankWorld. simpl. by rewrite Hs.
  - injection Hreq as <- <-. unfold serve. simpl handle.
    rewrite !handleFileDownload_world.
    split; [|unfold blankWorld; simpl; by rewrite Hs].
    unfold handleFileDownload, bind, storeGet, ret. simpl. specialize (Hlook id).
    destruct (st !! id) as [r|], (st' !! id) as [r'|];
      try discriminate; simpl in *; [|reflexivity].
    injection Hlook as Hfiles _. rewrite Hfiles. by destruct (List.find _ _).
Qed.

(** X15. No answer of the server depends on the e-mail address or the
    message sent with an upload, nor on the creation date kept with an entry:
    the same requests with these fields left out get the same answers, one by
    one, along every sequence of requests. *)
Theorem X15_answers_ignore_email_and_message (evs : list (Z * Request)) (w : World) :
  responses (prod_map id blankRequest <$> evs) (blankWorld w) = responses evs w.
Proof.
  assert (∀ l v v', blankWorld v = blankWorld v' →
            responses (prod_map id blankRequest <$> l) v = responses l v') as Hgen.
  { induction l as [|[t req] l IH]; intros v v' Hv; [reflexivity|].
    simpl. destruct (serve_blank t (blankRequest req) req v v') as [Hresp Hnext];
      [by destruct req | done |].
    rewrite Hresp. f_equal. by apply IH. }
  apply Hgen. unfold blankWorld. simpl. f_equal.
  rewrite <- map_fmap_compose. apply map_fmap_ext. by intros i [].
Qed.
